(** * gmeterpy.corrections.polar_motion

    A shallow embedding of [src/gmeterpy/corrections/polar_motion.py] and the
    properties of its two functions, [get_iers_polar_motion] and
    [polar_motion_correction], and of the module's import-time statements.

    Numbers.  NumPy computes in IEEE binary64.  The embedding of
    [polar_motion_correction] is over the real numbers of the Standard
    Library ([np.sin] is [sin], [np.radians x] is [x * (PI / 180)]); module
    [Binary64] evaluates the unit conversions of the same function with the
    kernel's binary64 floats, which is where the two arithmetics part at the
    poles.  Properties are stated over the reals where binary64 keeps them
    (the expression evaluated, zeros, signs, shapes).

    Arrays.  An argument is a NumPy scalar or a one-dimensional array;
    binary operations broadcast and raise [ValueError] on shapes that do not
    combine.

    Effects.  [get_iers_polar_motion] talks to astropy and to the warnings
    machinery; it is an interaction tree over those calls, and astropy is
    the handler that answers them. *)

From Stdlib Require Import Reals Lra Lia List String ZArith Bool Floats.
From ITree Require Import ITree ITreeFacts Events.State Events.StateFacts.
Import ListNotations.
Import ITreeNotations.

Local Open Scope itree_scope.
Local Open Scope R_scope.

(** ** Python results *)

Inductive exn : Type :=
| ValueError (msg : string).

Inductive result (A : Type) : Type :=
| Ok (a : A)
| Raise (e : exn).

Arguments Ok {A} a.
Arguments Raise {A} e.

Definition bind {A B : Type} (r : result A) (k : A -> result B) : result B :=
  match r with
  | Ok a => k a
  | Raise e => Raise e
  end.

Notation "'let!' x ':=' r 'in' k" := (bind r (fun x => k))
  (at level 10, x name, r at level 100, k at level 200).

(** ** NumPy: scalars, one-dimensional arrays, ufuncs and broadcasting *)

Module np.

Inductive ndarray (A : Type) : Type :=
| Scalar (x : A)
| Array (xs : list A).

Arguments Scalar {A} x.
Arguments Array {A} xs.

Fixpoint zip_with {A B C : Type} (f : A -> B -> C)
    (xs : list A) (ys : list B) : list C :=
  match xs, ys with
  | x :: xs', y :: ys' => f x y :: zip_with f xs' ys'
  | _, _ => []
  end.

(** A unary ufunc applies point-wise and keeps the shape. *)
Definition ufunc1 {A B : Type} (f : A -> B) (a : ndarray A) : ndarray B :=
  match a with
  | Scalar x => Scalar (f x)
  | Array xs => Array (List.map f xs)
  end.

(** A binary ufunc broadcasts: a scalar combines with anything, two
    arrays need equal lengths unless one of them has length one. *)
Definition ufunc2 {A B C : Type} (f : A -> B -> C)
    (a : ndarray A) (b : ndarray B) : result (ndarray C) :=
  match a, b with
  | Scalar x, Scalar y => Ok (Scalar (f x y))
  | Scalar x, Array ys => Ok (Array (List.map (f x) ys))
  | Array xs, Scalar y => Ok (Array (List.map (fun x => f x y) xs))
  | Array xs, Array ys =>
      if Nat.eqb (List.length xs) (List.length ys) then Ok (Array (zip_with f xs ys))
      else match xs, ys with
           | [x], _ => Ok (Array (List.map (f x) ys))
           | _, [y] => Ok (Array (List.map (fun x => f x y) xs))
           | _, _ =>
               Raise (ValueError "operands could not be broadcast together")
           end
  end.

(** [np.radians]: [x * (NPY_PI / 180.0)]. *)
Definition deg2rad (x : R) : R := x * (PI / 180).

Definition radians : ndarray R -> ndarray R := ufunc1 deg2rad.
Definition sin : ndarray R -> ndarray R := ufunc1 Rtrigo_def.sin.
Definition cos : ndarray R -> ndarray R := ufunc1 Rtrigo_def.cos.

Definition multiply : ndarray R -> ndarray R -> result (ndarray R) :=
  ufunc2 Rmult.
Definition subtract : ndarray R -> ndarray R -> result (ndarray R) :=
  ufunc2 Rminus.
Definition divide : ndarray R -> ndarray R -> result (ndarray R) :=
  ufunc2 Rdiv.

(** [np.any] of a boolean array. *)
Definition any (a : ndarray bool) : bool :=
  match a with
  | Scalar b => b
  | Array bs => existsb (fun b => b) bs
  end.

(** The number of elements along the only axis; a scalar has none. *)
Definition shape {A : Type} (a : ndarray A) : option nat :=
  match a with
  | Scalar _ => None
  | Array xs => Some (List.length xs)
  end.

(** The number of axes: none for a scalar, one for an array. *)
Definition ndim {A : Type} (a : ndarray A) : nat :=
  match a with
  | Scalar _ => 0
  | Array _ => 1
  end.

(** Element [i], a scalar standing for each of its broadcast copies. *)
Definition item {A : Type} (d : A) (a : ndarray A) (i : nat) : A :=
  match a with
  | Scalar x => x
  | Array xs => nth i xs d
  end.

End np.

Abbreviation ndarray := np.ndarray.
Abbreviation Scalar := np.Scalar.
Abbreviation Array := np.Array.

Declare Scope nd_scope.
Delimit Scope nd_scope with nd.
Infix "*" := np.multiply : nd_scope.
Infix "-" := np.subtract : nd_scope.
Infix "/" := np.divide : nd_scope.

(** ** polar_motion_correction (lines 48-106) *)

Definition polar_motion_correction (xp yp lat lon : ndarray R)
    : result (ndarray R) :=
  let a := 6378136 in
  let omega := 7292115e-11 in
  let! xp := (xp / Scalar 3600)%nd in
  let xp := np.radians xp in
  let! yp := (yp / Scalar 3600)%nd in
  let yp := np.radians yp in
  let lat := np.radians lat in
  let lon := np.radians lon in
  let! s2 := (Scalar 2 * np.sin lat)%nd in
  let! sc := (s2 * np.cos lat)%nd in
  let! xc := (xp * np.cos lon)%nd in
  let! ys := (yp * np.sin lon)%nd in
  let! d := (xc - ys)%nd in
  let! coords := (sc * d)%nd in
  (Scalar (-1.164 * omega ^ 2 * a)%R * coords)%nd.

(** The same statements on one element: what the function computes for
    scalar arguments, and at each index of array arguments. *)
Definition correction1 (xp yp lat lon : R) : R :=
  let a := 6378136 in
  let omega := 7292115e-11 in
  let xp := np.deg2rad (xp / 3600) in
  let yp := np.deg2rad (yp / 3600) in
  let lat := np.deg2rad lat in
  let lon := np.deg2rad lon in
  let coords :=
    2 * sin lat * cos lat * (xp * cos lon - yp * sin lon) in
  -1.164 * omega ^ 2 * a * coords.

(** The formula of the specification, in its words: arcseconds to degrees
    to radians, degrees to radians, [coords], and the scaled result. *)
Definition degrees_to_radians (d : R) : R := d * PI / 180.

Definition pole_tide (xp yp lat lon : R) : R :=
  let delta := 1.164 in
  let omega := 7.292115e-5 in
  let a := 6378136 in
  let xp_rad := degrees_to_radians (xp / 3600) in
  let yp_rad := degrees_to_radians (yp / 3600) in
  let lat_rad := degrees_to_radians lat in
  let lon_rad := degrees_to_radians lon in
  let coords :=
    2 * sin lat_rad * cos lat_rad
      * (xp_rad * cos lon_rad - yp_rad * sin lon_rad) in
  - delta * omega ^ 2 * a * coords.

(** ** The unit conversions in binary64

    Lines 98-101 as NumPy evaluates them: [xp / 3600] is an IEEE division and
    [np.radians x] the IEEE product [x * (NPY_PI / 180.0)].  [sin], [cos] and
    the arithmetic of lines 103-106 are taken on the exact values of the
    resulting doubles, where the program rounds each of them again: the
    angles are the program's, and so is whether the value is zero and
    which sign it has, but not its size. *)

Module Binary64.

(** The real number a finite double stands for. *)
Definition SF2R (v : spec_float) : R :=
  match v with
  | S754_finite s m e =>
      let z := if s then Z.neg m else Z.pos m in
      match e with
      | Z0 => IZR z
      | Z.pos p => IZR (z * Z.pow_pos 2 p)
      | Z.neg p => IZR z / IZR (Z.pow_pos 2 p)
      end
  | _ => 0
  end.

Definition B2R (x : float) : R := SF2R (Prim2SF x).

Definition NPY_PI : float := 0x1.921fb54442d18p+1%float.

Definition radians (x : float) : float := (x * (NPY_PI / 180))%float.

Definition polar_motion_correction (xp yp lat lon : float) : R :=
  let a := 6378136 in
  let omega := 7292115e-11 in
  let xp := B2R (radians (xp / 3600)) in
  let yp := B2R (radians (yp / 3600)) in
  let lat := B2R (radians lat) in
  let lon := B2R (radians lon) in
  let coords :=
    2 * sin lat * cos lat * (xp * cos lon - yp * sin lon) in
  -1.164 * omega ^ 2 * a * coords.

End Binary64.

(** ** The module's import-time statements (lines 14-18)

    [iers.conf] is astropy's process-wide configuration object; the fields
    are the ones the module assigns, and the mirror URL stands for the
    others, which it leaves alone. *)

Record Conf : Type := {
  auto_download : option bool;
  auto_max_age : Z;
  iers_auto_url : string;
  iers_auto_url_mirror : string;
  remote_timeout : Z;
}.

Definition set_auto_max_age (v : Z) (c : Conf) : Conf :=
  {| auto_download := auto_download c; auto_max_age := v;
     iers_auto_url := iers_auto_url c;
     iers_auto_url_mirror := iers_auto_url_mirror c;
     remote_timeout := remote_timeout c |}.

Definition set_auto_download (v : option bool) (c : Conf) : Conf :=
  {| auto_download := v; auto_max_age := auto_max_age c;
     iers_auto_url := iers_auto_url c;
     iers_auto_url_mirror := iers_auto_url_mirror c;
     remote_timeout := remote_timeout c |}.

Definition set_iers_auto_url (v : string) (c : Conf) : Conf :=
  {| auto_download := auto_download c; auto_max_age := auto_max_age c;
     iers_auto_url := v;
     iers_auto_url_mirror := iers_auto_url_mirror c;
     remote_timeout := remote_timeout c |}.

Definition set_remote_timeout (v : Z) (c : Conf) : Conf :=
  {| auto_download := auto_download c; auto_max_age := auto_max_age c;
     iers_auto_url := iers_auto_url c;
     iers_auto_url_mirror := iers_auto_url_mirror c;
     remote_timeout := v |}.

Definition IERS_A_URL : string :=
  "ftp://ftp.iers.org/products/eop/rapid/standard/finals2000A.all".

(** Importing the module runs its top-level statements, in order, on the
    configuration it finds. *)
Definition import_module (conf : Conf) : Conf :=
  let conf := set_auto_max_age 10 conf in
  let conf := set_auto_download None conf in
  let conf := set_iers_auto_url IERS_A_URL conf in
  let conf := set_remote_timeout 60 conf in
  conf.

(** ** get_iers_polar_motion (lines 21-45) *)

(** [astropy.utils.iers.FROM_IERS_B], the source code of a final value. *)
Definition FROM_IERS_B : Z := 0.

Definition wrnmsg : string := "Some pole coordinates are not final.".

(** [status != iers.FROM_IERS_B]: the right operand is a Python scalar, so
    the comparison is point-wise on the left one. *)
Definition not_equal (status : ndarray Z) (code : Z) : ndarray bool :=
  np.ufunc1 (fun s => negb (Z.eqb s code)) status.

Section IERS.

(** The class of the table object [IERS_Auto.open()] returns. *)
Variable IERS_Auto : Type.

(** What the function asks of its environment. *)
Variant iersE : Type -> Type :=
| IERS_Auto_open : iersE IERS_Auto
| pm_xy (tbl : IERS_Auto) (jd : ndarray R)
    : iersE (ndarray R * ndarray R * ndarray Z)
| warnings_warn (msg : string) : iersE unit.

Definition get_iers_polar_motion (jd : ndarray R)
    : itree iersE (ndarray R * ndarray R) :=
  iers_table <- ITree.trigger IERS_Auto_open ;;
  '(pm_x, pm_y, status) <- ITree.trigger (pm_xy iers_table jd) ;;
  (if np.any (not_equal status FROM_IERS_B)
   then ITree.trigger (warnings_warn wrnmsg)
   else Ret tt) ;;
  Ret (pm_x, pm_y).

(** *** The environment

    astropy answers [open] with a table and [pm_xy] by interpolating each
    epoch on its own; the process keeps, in order, what was asked of it.
    The arrays hold the numbers of astropy's answer, whose values carry
    the arcsecond unit; a query astropy does not answer (it raises, or
    returns something else than three arrays) is not a run of this
    environment, and every call of [warnings.warn] is recorded, whatever
    the warning filters then show. *)

Record astropy : Type := {
  auto_table : IERS_Auto;
  interpolate : IERS_Auto -> R -> R * R * Z;
}.

Inductive effect : Type :=
| Opened
| Interpolated (jd : ndarray R)
| Warned (msg : string).

Definition process : Type := list effect.

Definition PM_x (A : astropy) (tbl : IERS_Auto) (jd : ndarray R) : ndarray R :=
  np.ufunc1 (fun t => fst (fst (interpolate A tbl t))) jd.
Definition PM_y (A : astropy) (tbl : IERS_Auto) (jd : ndarray R) : ndarray R :=
  np.ufunc1 (fun t => snd (fst (interpolate A tbl t))) jd.
Definition PM_source (A : astropy) (tbl : IERS_Auto) (jd : ndarray R) : ndarray Z :=
  np.ufunc1 (fun t => snd (interpolate A tbl t)) jd.

Definition handle (A : astropy) : iersE ~> Monads.stateT process (itree void1) :=
  fun _ e p =>
    match e with
    | IERS_Auto_open => Ret (p ++ [Opened], auto_table A)
    | pm_xy tbl jd =>
        Ret (p ++ [Interpolated jd],
             (PM_x A tbl jd, PM_y A tbl jd, PM_source A tbl jd))
    | warnings_warn msg => Ret (p ++ [Warned msg], tt)
    end.

Definition run (A : astropy) (jd : ndarray R) (p : process)
    : itree void1 (process * (ndarray R * ndarray R)) :=
  interp_state (handle A) (get_iers_polar_motion jd) p.

(** The advisories and the table acquisitions a process has seen. *)
Definition advisories (p : process) : list string :=
  flat_map (fun e => match e with Warned msg => [msg] | _ => [] end) p.

Definition acquisitions (p : process) : nat :=
  List.length (filter (fun e => match e with Opened => true | _ => false end) p).

(** Whether some epoch of [jd] resolves to a value that is not final. *)
Definition not_all_final (A : astropy) (jd : ndarray R) : bool :=
  np.any (not_equal (PM_source A (auto_table A) jd) FROM_IERS_B).

(** The epochs of a query, in order, and the source code astropy gives
    the pole coordinates at one of them. *)
Definition epochs (jd : ndarray R) : list R :=
  match jd with
  | Scalar t => [t]
  | Array ts => ts
  end.

Definition status_at (A : astropy) (t : R) : Z :=
  snd (interpolate A (auto_table A) t).

End IERS.

Arguments IERS_Auto_open {IERS_Auto}.
Arguments pm_xy {IERS_Auto} tbl jd.
Arguments warnings_warn {IERS_Auto} msg.
Arguments auto_table {IERS_Auto} a.
Arguments interpolate {IERS_Auto} a tbl jd.
Arguments PM_x {IERS_Auto} A tbl jd.
Arguments PM_y {IERS_Auto} A tbl jd.
Arguments PM_source {IERS_Auto} A tbl jd.
Arguments handle {IERS_Auto} A [T] e p.
Arguments run {IERS_Auto} A jd p.
Arguments not_all_final {IERS_Auto} A jd.
Arguments status_at {IERS_Auto} A t.

(** Two environments to run the function in: a table of finals only, and
    one whose values past the epoch 60000 are predictions. *)
Definition FROM_IERS_A_PREDICTION : Z := 2.

Definition finals : astropy unit :=
  {| auto_table := tt;
     interpolate := fun _ _ => (0.1, 0.05, FROM_IERS_B) |}.

Definition rapid : astropy unit :=
  {| auto_table := tt;
     interpolate := fun _ t =>
       (0.1, 0.05, if Rle_dec t 60000 then FROM_IERS_B else FROM_IERS_A_PREDICTION) |}.

(** * Properties *)

(** ** Broadcasting *)

(** [fits n a]: [a] broadcasts to length [n] as a scalar or as an array of
    that length. *)
Definition fits {A : Type} (n : nat) (a : ndarray A) : Prop :=
  match a with
  | Scalar _ => True
  | Array xs => List.length xs = n
  end.

Lemma nth_zip_with {A B C : Type} (f : A -> B -> C) (da : A) (db : B) (dc : C) :
  forall (xs : list A) (ys : list B) (i : nat),
    List.length xs = List.length ys -> (i < List.length xs)%nat ->
    nth i (np.zip_with f xs ys) dc = f (nth i xs da) (nth i ys db).
Proof.
  induction xs as [|x xs IH]; intros [|y ys] i Hlen Hi; simpl in *;
    try lia.
  destruct i as [|i]; [reflexivity|].
  apply IH; lia.
Qed.

Lemma length_zip_with {A B C : Type} (f : A -> B -> C) :
  forall (xs : list A) (ys : list B),
    List.length xs = List.length ys ->
    List.length (np.zip_with f xs ys) = List.length xs.
Proof.
  induction xs as [|x xs IH]; intros [|y ys] Hlen; simpl in *;
    try lia.
  rewrite IH; lia.
Qed.

Lemma nth_map_in {A B : Type} (f : A -> B) (da : A) (db : B) :
  forall (xs : list A) (i : nat),
    (i < List.length xs)%nat -> nth i (List.map f xs) db = f (nth i xs da).
Proof.
  induction xs as [|x xs IH]; intros i Hi; simpl in *; [lia|].
  destruct i as [|i]; [reflexivity|].
  apply IH; lia.
Qed.

Lemma ufunc1_fits {A B : Type} (f : A -> B) (da : A) (db : B)
    (n : nat) (a : ndarray A) :
  fits n a ->
  fits n (np.ufunc1 f a)
  /\ np.ndim (np.ufunc1 f a) = np.ndim a
  /\ forall i, (i < n)%nat ->
       np.item db (np.ufunc1 f a) i = f (np.item da a i).
Proof.
  destruct a as [x|xs]; simpl; intros H.
  - repeat split.
  - repeat split; [now rewrite length_map|].
    intros i Hi. apply nth_map_in. lia.
Qed.

Lemma ufunc2_fits {A B C : Type} (f : A -> B -> C) (da : A) (db : B) (dc : C)
    (n : nat) (a : ndarray A) (b : ndarray B) :
  fits n a -> fits n b ->
  exists c, np.ufunc2 f a b = Ok c
    /\ fits n c
    /\ np.ndim c = Nat.max (np.ndim a) (np.ndim b)
    /\ forall i, (i < n)%nat ->
         np.item dc c i = f (np.item da a i) (np.item db b i).
Proof.
  destruct a as [x|xs], b as [y|ys]; simpl; intros Ha Hb.
  - eexists; repeat split.
  - eexists; repeat split; simpl; [now rewrite length_map|].
    intros i Hi. apply (nth_map_in (f x)). lia.
  - eexists; repeat split; simpl; [now rewrite length_map|].
    intros i Hi. apply (nth_map_in (fun x => f x y)). lia.
  - assert (Hlen : List.length xs = List.length ys) by lia.
    rewrite Hlen, Nat.eqb_refl.
    eexists; repeat split; simpl; [rewrite length_zip_with; lia|].
    intros i Hi. apply nth_zip_with; lia.
Qed.

(** ** The correction on scalars *)

Lemma polar_motion_correction_scalar (xp yp lat lon : R) :
  polar_motion_correction (Scalar xp) (Scalar yp) (Scalar lat) (Scalar lon)
  = Ok (Scalar (correction1 xp yp lat lon)).
Proof. reflexivity. Qed.

Lemma deg2rad_degrees (d : R) : np.deg2rad d = degrees_to_radians d.
Proof. unfold np.deg2rad, degrees_to_radians. field. Qed.

Lemma correction1_pole_tide (xp yp lat lon : R) :
  correction1 xp yp lat lon = pole_tide xp yp lat lon.
Proof.
  unfold correction1, pole_tide. cbv zeta.
  rewrite !deg2rad_degrees. lra.
Qed.

(** The factor in front of the pole coordinates is [sin (2 lat)]. *)
Lemma correction1_sin_2lat (xp yp lat lon : R) :
  correction1 xp yp lat lon
  = -1.164 * 7292115e-11 ^ 2 * 6378136
    * (sin (2 * np.deg2rad lat)
       * (np.deg2rad (xp / 3600) * cos (np.deg2rad lon)
          - np.deg2rad (yp / 3600) * sin (np.deg2rad lon))).
Proof. unfold correction1. cbv zeta. rewrite sin_2a. ring. Qed.

Lemma deg2rad_opp (d : R) : np.deg2rad (- d) = - np.deg2rad d.
Proof. unfold np.deg2rad. ring. Qed.

Lemma deg2rad_90 : np.deg2rad 90 = PI / 2.
Proof. unfold np.deg2rad. field. Qed.

Lemma deg2rad_minus_90 : np.deg2rad (-90) = - (PI / 2).
Proof. unfold np.deg2rad. lra. Qed.

Lemma deg2rad_135 : 2 * np.deg2rad 135 = 3 * (PI / 2).
Proof. unfold np.deg2rad. field. Qed.

(** ** Binary64: values and signs *)

Ltac eval_B2R :=
  unfold Binary64.B2R;
  match goal with
  | |- context [Prim2SF ?x] =>
      let v := eval vm_compute in (Prim2SF x) in
      change (Prim2SF x) with v
  end;
  cbv [Binary64.SF2R]; cbv beta iota zeta;
  repeat match goal with
  | |- context [Z.pow_pos 2 ?p] =>
      let v := eval vm_compute in (Z.pow_pos 2 p) in
      change (Z.pow_pos 2 p) with v
  end.

Lemma B2R_radians_90 :
  Binary64.B2R (Binary64.radians 90) = 7074237752028440 / 4503599627370496.
Proof. eval_B2R. reflexivity. Qed.

Lemma B2R_radians_minus_90 :
  Binary64.B2R (Binary64.radians (-90))
  = - (7074237752028440 / 4503599627370496).
Proof. eval_B2R. lra. Qed.

Lemma B2R_radians_0 : Binary64.B2R (Binary64.radians 0) = 0.
Proof. eval_B2R. reflexivity. Qed.

Lemma B2R_radians_0_arcsec : Binary64.B2R (Binary64.radians (0 / 3600)) = 0.
Proof. eval_B2R. reflexivity. Qed.

Lemma B2R_radians_1_arcsec :
  Binary64.B2R (Binary64.radians (1 / 3600))
  = 5723669695270813 / 1180591620717411303424.
Proof. eval_B2R. reflexivity. Qed.

(** IEEE rounding is symmetric: negation commutes with the product and the
    quotient, hence with the unit conversions. *)
Lemma SF2R_opp (v : spec_float) :
  Binary64.SF2R (SFopp v) = - Binary64.SF2R v.
Proof.
  destruct v as [s|s| |s m e]; simpl; try lra.
  destruct s, e; simpl negb; cbv iota;
    rewrite ?mult_IZR; change (Z.neg m) with (- Z.pos m)%Z;
    rewrite ?opp_IZR; lra.
Qed.

Lemma binary_round_aux_negb (s : bool) (m e : Z) (l : location) :
  binary_round_aux prec emax (negb s) m e l
  = SFopp (binary_round_aux prec emax s m e l).
Proof.
  unfold binary_round_aux.
  destruct (shr_fexp prec emax m e l) as [mrs' e'].
  destruct (shr_fexp prec emax _ e' loc_Exact) as [mrs'' e''].
  destruct (shr_m mrs''); try reflexivity.
  now destruct (Z.leb e'' (emax - prec)).
Qed.

Lemma SFmul_opp_l (a b : spec_float) :
  SFmul prec emax (SFopp a) b = SFopp (SFmul prec emax a b).
Proof.
  destruct a as [sa|sa| |sa ma ea], b as [sb|sb| |sb mb eb]; simpl;
    try reflexivity; try (now destruct sa, sb).
  rewrite <- binary_round_aux_negb. now destruct sa, sb.
Qed.

Lemma SFdiv_opp_l (a b : spec_float) :
  SFdiv prec emax (SFopp a) b = SFopp (SFdiv prec emax a b).
Proof.
  destruct a as [sa|sa| |sa ma ea], b as [sb|sb| |sb mb eb]; simpl;
    try reflexivity; try (now destruct sa, sb).
  destruct (SFdiv_core_binary prec emax (Z.pos ma) ea (Z.pos mb) eb)
    as [[mz ez] lz].
  rewrite <- binary_round_aux_negb. now destruct sa, sb.
Qed.

Lemma B2R_radians_opp (x : float) :
  Binary64.B2R (Binary64.radians (- x))
  = - Binary64.B2R (Binary64.radians x).
Proof.
  unfold Binary64.B2R, Binary64.radians.
  rewrite !mul_spec, opp_spec. unfold SF64mul.
  now rewrite SFmul_opp_l, SF2R_opp.
Qed.

Lemma B2R_radians_arcsec_opp (x : float) :
  Binary64.B2R (Binary64.radians (- x / 3600))
  = - Binary64.B2R (Binary64.radians (x / 3600)).
Proof.
  unfold Binary64.B2R, Binary64.radians.
  rewrite !mul_spec, !div_spec, opp_spec. unfold SF64mul, SF64div.
  now rewrite SFdiv_opp_l, SFmul_opp_l, SF2R_opp.
Qed.

(** C1: for scalar [xp], [yp] (arcseconds) and [lat], [lon] (degrees) the
    function returns [- 1.164 * omega^2 * a * coords] with
    [omega = 7.292115e-5], [a = 6378136] and
    [coords = 2 sin(lat) cos(lat) (xp cos(lon) - yp sin(lon))] on the angles
    converted to radians, [xp] and [yp] divided by 3600 first. *)
Theorem polar_motion_correction_formula (xp yp lat lon : R) :
  polar_motion_correction (Scalar xp) (Scalar yp) (Scalar lat) (Scalar lon)
  = Ok (Scalar (pole_tide xp yp lat lon)).
Proof.
  rewrite polar_motion_correction_scalar.
  now rewrite correction1_pole_tide.
Qed.

(** C6: with both pole coordinates zero the correction is zero, at every
    latitude and longitude; the binary64 conversions keep it so. *)
Theorem polar_motion_correction_zero_pole :
  (forall lat lon : R,
      polar_motion_correction (Scalar 0) (Scalar 0) (Scalar lat) (Scalar lon)
      = Ok (Scalar 0))
  /\ (forall lat lon : float,
        is_finite lat = true -> is_finite lon = true ->
        Binary64.polar_motion_correction 0 0 lat lon = 0).
Proof.
  split.
  - intros lat lon.
    rewrite polar_motion_correction_scalar. do 2 f_equal.
    unfold correction1, np.deg2rad. cbv zeta.
    replace (0 / 3600 * (PI / 180)) with 0 by field.
    ring.
  - intros lat lon _ _.
    unfold Binary64.polar_motion_correction. cbv zeta.
    rewrite B2R_radians_0_arcsec. ring.
Qed.

Lemma polar_motion_correction_zero_pole_witness :
  polar_motion_correction (Scalar 0) (Scalar 0) (Scalar 45) (Scalar 10)
  = Ok (Scalar 0)
  /\ Binary64.polar_motion_correction 0 0 45 10 = 0.
Proof.
  split.
  - apply (proj1 polar_motion_correction_zero_pole).
  - apply (proj2 polar_motion_correction_zero_pole); reflexivity.
Defined.

(** C9: the correction changes sign with the pole coordinates, and with the
    latitude; the binary64 conversions keep both symmetries. *)
Theorem polar_motion_correction_odd :
  (forall xp yp lat lon : R,
      exists g : R,
        polar_motion_correction
          (Scalar xp) (Scalar yp) (Scalar lat) (Scalar lon)
        = Ok (Scalar g)
        /\ polar_motion_correction
             (Scalar (- xp)) (Scalar (- yp)) (Scalar lat) (Scalar lon)
           = Ok (Scalar (- g))
        /\ polar_motion_correction
             (Scalar xp) (Scalar yp) (Scalar (- lat)) (Scalar lon)
           = Ok (Scalar (- g)))
  /\ (forall xp yp lat lon : float,
        is_finite xp = true -> is_finite yp = true ->
        is_finite lat = true -> is_finite lon = true ->
        Binary64.polar_motion_correction (- xp) (- yp) lat lon
        = - Binary64.polar_motion_correction xp yp lat lon
        /\ Binary64.polar_motion_correction xp yp (- lat) lon
           = - Binary64.polar_motion_correction xp yp lat lon).
Proof.
  split.
  - intros xp yp lat lon.
    exists (correction1 xp yp lat lon).
    rewrite !polar_motion_correction_scalar.
    repeat split; do 2 f_equal; unfold correction1; cbv zeta.
    + replace (- xp / 3600) with (- (xp / 3600)) by field.
      replace (- yp / 3600) with (- (yp / 3600)) by field.
      rewrite !deg2rad_opp. ring.
    + rewrite deg2rad_opp, sin_neg, cos_neg. ring.
  - intros xp yp lat lon _ _ _ _.
    unfold Binary64.polar_motion_correction. cbv zeta. split.
    + rewrite !B2R_radians_arcsec_opp. ring.
    + rewrite B2R_radians_opp, sin_neg, cos_neg. ring.
Qed.

Lemma polar_motion_correction_odd_witness :
  Binary64.polar_motion_correction (- 0.25) (- 0.5) 45 10
  = - Binary64.polar_motion_correction 0.25 0.5 45 10
  /\ Binary64.polar_motion_correction 0.25 0.5 (- 45) 10
     = - Binary64.polar_motion_correction 0.25 0.5 45 10.
Proof.
  apply (proj2 polar_motion_correction_odd
           0.25%float 0.5%float 45%float 10%float);
    reflexivity.
Defined.

(** C2, amended: no latitude is rejected.  Outside [[-90, 90]] the function
    returns the value of the formula at that latitude, like inside. *)
Theorem polar_motion_correction_latitude_unchecked (xp yp lat lon : R) :
  lat < -90 \/ 90 < lat ->
  polar_motion_correction (Scalar xp) (Scalar yp) (Scalar lat) (Scalar lon)
  = Ok (Scalar (pole_tide xp yp lat lon)).
Proof.
  intros _. rewrite polar_motion_correction_scalar.
  now rewrite correction1_pole_tide.
Qed.

Lemma polar_motion_correction_latitude_unchecked_witness :
  polar_motion_correction (Scalar 0.1) (Scalar 0.05) (Scalar 135) (Scalar 0)
  = Ok (Scalar (pole_tide 0.1 0.05 135 0)).
Proof.
  apply polar_motion_correction_latitude_unchecked. right. lra.
Defined.

(** C2 as stated fails: at latitude 135 the call returns a number, which is
    positive, so it is neither an error nor the value at the clamped
    latitude 90. *)
Lemma latitude_135_is_computed :
  polar_motion_correction (Scalar 1) (Scalar 0) (Scalar 135) (Scalar 0)
  = Ok (Scalar (1.164 * 7292115e-11 ^ 2 * 6378136 * (PI / 648000)))
  /\ 0 < 1.164 * 7292115e-11 ^ 2 * 6378136 * (PI / 648000).
Proof.
  split.
  - rewrite polar_motion_correction_scalar. do 2 f_equal.
    rewrite correction1_sin_2lat, deg2rad_135, sin_3PI2.
    unfold np.deg2rad.
    replace (0 * (PI / 180)) with 0 by ring.
    rewrite cos_0, sin_0. lra.
  - assert (H := PI_RGT_0). nra.
Qed.

(** ** The poles *)

Lemma correction1_north_pole (xp yp lon : R) : correction1 xp yp 90 lon = 0.
Proof.
  unfold correction1. cbv zeta. rewrite deg2rad_90, cos_PI2. ring.
Qed.

Lemma correction1_south_pole (xp yp lon : R) : correction1 xp yp (-90) lon = 0.
Proof.
  unfold correction1. cbv zeta.
  rewrite deg2rad_minus_90, cos_neg, cos_PI2. ring.
Qed.

(** Bounds on [PI] from the series of [2 atan (1/3) + atan (1/7)], sharp
    enough to place the double nearest to [PI / 2]. *)
Lemma PI_above_double : 7074237752028440 / 2251799813685248 < PI.
Proof.
  destruct (PI_2_3_7_ineq 8) as [H _].
  cbv [sum_f_R0 tg_alt PI_2_3_7_tg Ratan_seq Nat.mul Nat.add] in H.
  rewrite ?INR_IZR_INZ in H.
  cbv [Z.of_nat Pos.of_succ_nat Pos.succ] in H.
  lra.
Qed.

Lemma PI_below_next : PI < 7074237752028440 / 2251799813685248 + 1.2247 / 10 ^ 16.
Proof.
  destruct (PI_2_3_7_ineq 10) as [_ H].
  cbv [sum_f_R0 tg_alt PI_2_3_7_tg Ratan_seq Nat.mul Nat.add] in H.
  rewrite ?INR_IZR_INZ in H.
  cbv [Z.of_nat Pos.of_succ_nat Pos.succ] in H.
  lra.
Qed.

(** The value the specification works out by hand: about [-1.914e-8] for
    a pole at (0.1, 0.05) arcseconds seen from latitude 45, longitude 0. *)
Example correction_at_45_degrees :
  - (1.915 / 10 ^ 8) < correction1 0.1 0.05 45 0 < - (1.913 / 10 ^ 8).
Proof.
  rewrite correction1_sin_2lat.
  replace (2 * np.deg2rad 45) with (PI / 2) by (unfold np.deg2rad; lra).
  replace (np.deg2rad 0) with 0 by (unfold np.deg2rad; lra).
  rewrite sin_PI2, cos_0, sin_0. unfold np.deg2rad.
  assert (Hl := PI_above_double). assert (Hu := PI_below_next). lra.
Qed.

(** The double [radians 90] lies strictly below [PI / 2], by less than
    [6.1235e-17]. *)
Lemma double_below_half_PI :
  0 < PI / 2 - 7074237752028440 / 4503599627370496 < 6.1235 / 10 ^ 17.
Proof.
  assert (Hl := PI_above_double). assert (Hu := PI_below_next). lra.
Qed.

Lemma cos_double_half_PI :
  0 < cos (7074237752028440 / 4503599627370496) < 6.1235 / 10 ^ 17.
Proof.
  destruct double_below_half_PI as [Hl Hu].
  rewrite <- sin_shift. split.
  - apply sin_gt_0; [exact Hl|]. assert (H := PI_RGT_0). lra.
  - apply Rlt_trans with (2 := Hu). now apply sin_lt_x.
Qed.

Lemma sin_double_half_PI : 0 < sin (7074237752028440 / 4503599627370496).
Proof.
  destruct double_below_half_PI as [Hl _].
  apply sin_gt_0; lra.
Qed.

(** C7, amended: at latitude 90 and -90 the formula is zero in exact
    arithmetic, with no case of its own in the function.  In binary64 the
    value is not exactly zero in general: [np.radians] turns 90 and -90
    into the doubles [d] and [- d], [d = 7074237752028440 / 2 ^ 52], which
    lie strictly inside [(- PI / 2, PI / 2)], less than [6.1235e-17] from
    its ends, and the latitude factor [2 sin cos] of line 103 is not zero
    at them.  Nothing is said of the size of the value the program
    returns there: it rounds every later operation. *)
Theorem polar_motion_correction_poles :
  (forall xp yp lon : R,
      polar_motion_correction (Scalar xp) (Scalar yp) (Scalar 90) (Scalar lon)
      = Ok (Scalar 0)
      /\ polar_motion_correction
           (Scalar xp) (Scalar yp) (Scalar (-90)) (Scalar lon)
         = Ok (Scalar 0))
  /\ (let d := Binary64.B2R (Binary64.radians 90) in
      Binary64.B2R (Binary64.radians (-90)) = - d
      /\ 0 < PI / 2 - d < 6.1235 / 10 ^ 17
      /\ 0 < 2 * sin d * cos d < 1.2247 / 10 ^ 16
      /\ - (1.2247 / 10 ^ 16) < 2 * sin (- d) * cos (- d) < 0).
Proof.
  split.
  - intros xp yp lon. rewrite !polar_motion_correction_scalar.
    now rewrite correction1_north_pole, correction1_south_pole.
  - cbv zeta. rewrite B2R_radians_90, B2R_radians_minus_90.
    destruct cos_double_half_PI as [Hc0 Hc1].
    assert (Hs0 := sin_double_half_PI).
    destruct (SIN_bound (7074237752028440 / 4503599627370496)) as [_ Hs1].
    rewrite sin_neg, cos_neg.
    set (s := sin (7074237752028440 / 4503599627370496)) in *.
    set (c := cos (7074237752028440 / 4503599627370496)) in *.
    assert (Ht0 : 0 < s * c) by nra.
    assert (Ht1 : s * c < 6.1235 / 10 ^ 17) by nra.
    split; [reflexivity|]. split; [exact double_below_half_PI|].
    split; lra.
Qed.

(** C7 as stated fails in binary64: with [xp = 1], [yp = 0] at latitude 90
    and longitude 0 the value is negative, not zero. *)
Lemma north_pole_not_exactly_zero :
  - (2.5 / 10 ^ 23) < Binary64.polar_motion_correction 1 0 90 0 < 0.
Proof.
  unfold Binary64.polar_motion_correction. cbv zeta.
  rewrite B2R_radians_90, B2R_radians_1_arcsec, B2R_radians_0_arcsec,
    B2R_radians_0, cos_0, sin_0.
  destruct cos_double_half_PI as [Hc0 Hc1].
  assert (Hs0 := sin_double_half_PI).
  destruct (SIN_bound (7074237752028440 / 4503599627370496)) as [_ Hs1].
  set (s := sin (7074237752028440 / 4503599627370496)) in *.
  set (c := cos (7074237752028440 / 4503599627370496)) in *.
  assert (Ht0 : 0 < s * c) by nra.
  assert (Ht1 : s * c < 6.1235 / 10 ^ 17) by nra.
  replace (2 * s * c
           * (5723669695270813 / 1180591620717411303424 * 1 - 0 * 0))
    with (2 * (5723669695270813 / 1180591620717411303424) * (s * c))
    by ring.
  generalize dependent (s * c). intros t Ht0 Ht1. lra.
Qed.

(** ** Arrays *)

(** C4: on scalars and arrays of one length the call raises nothing and
    returns, at every index, the value of the function's statements on the
    elements at that index, a scalar standing in at each index; the result
    is a scalar when all four arguments are, and an array of that length
    otherwise.  The result is a function of the four arguments alone: the
    embedding has no state to read and none to write. *)
Theorem polar_motion_correction_elementwise
    (n : nat) (xp yp lat lon : ndarray R) :
  fits n xp -> fits n yp -> fits n lat -> fits n lon ->
  exists g : ndarray R,
    polar_motion_correction xp yp lat lon = Ok g
    /\ fits n g
    /\ np.ndim g
       = Nat.max (Nat.max (np.ndim xp) (np.ndim yp))
           (Nat.max (np.ndim lat) (np.ndim lon))
    /\ forall i, (i < n)%nat ->
         np.item 0 g i
         = correction1 (np.item 0 xp i) (np.item 0 yp i)
             (np.item 0 lat i) (np.item 0 lon i).
Proof.
  intros Hxp Hyp Hlat Hlon.
  unfold polar_motion_correction. cbv zeta.
  unfold np.divide, np.multiply, np.subtract, np.radians, np.sin, np.cos.
  destruct (ufunc2_fits Rdiv 0 0 0 n xp (Scalar 3600) Hxp I)
    as (x1 & E & Fx1 & Dx1 & Ix1); rewrite E; clear E; cbn [bind].
  destruct (ufunc1_fits np.deg2rad 0 0 n x1 Fx1) as (Fx2 & Dx2 & Ix2).
  destruct (ufunc2_fits Rdiv 0 0 0 n yp (Scalar 3600) Hyp I)
    as (y1 & E & Fy1 & Dy1 & Iy1); rewrite E; clear E; cbn [bind].
  destruct (ufunc1_fits np.deg2rad 0 0 n y1 Fy1) as (Fy2 & Dy2 & Iy2).
  destruct (ufunc1_fits np.deg2rad 0 0 n lat Hlat) as (Flat & Dlat & Ilat).
  destruct (ufunc1_fits np.deg2rad 0 0 n lon Hlon) as (Flon & Dlon & Ilon).
  destruct (ufunc1_fits Rtrigo_def.sin 0 0 n _ Flat) as (Fsl & Dsl & Isl).
  destruct (ufunc1_fits Rtrigo_def.cos 0 0 n _ Flat) as (Fcl & Dcl & Icl).
  destruct (ufunc1_fits Rtrigo_def.sin 0 0 n _ Flon) as (Fso & Dso & Iso).
  destruct (ufunc1_fits Rtrigo_def.cos 0 0 n _ Flon) as (Fco & Dco & Ico).
  destruct (ufunc2_fits Rmult 0 0 0 n (Scalar 2) _ I Fsl)
    as (s2 & E & Fs2 & Ds2 & Is2); rewrite E; clear E; cbn [bind].
  destruct (ufunc2_fits Rmult 0 0 0 n s2 _ Fs2 Fcl)
    as (sc & E & Fsc & Dsc & Isc); rewrite E; clear E; cbn [bind].
  destruct (ufunc2_fits Rmult 0 0 0 n _ _ Fx2 Fco)
    as (xc & E & Fxc & Dxc & Ixc); rewrite E; clear E; cbn [bind].
  destruct (ufunc2_fits Rmult 0 0 0 n _ _ Fy2 Fso)
    as (ys & E & Fys & Dys & Iys); rewrite E; clear E; cbn [bind].
  destruct (ufunc2_fits Rminus 0 0 0 n xc ys Fxc Fys)
    as (d & E & Fd & Dd & Id); rewrite E; clear E; cbn [bind].
  destruct (ufunc2_fits Rmult 0 0 0 n sc d Fsc Fd)
    as (coords & E & Fcoords & Dcoords & Icoords);
    rewrite E; clear E; cbn [bind].
  destruct (ufunc2_fits Rmult 0 0 0 n
              (Scalar (-1.164 * 7292115e-11 ^ 2 * 6378136)) coords I Fcoords)
    as (g & E & Fg & Dg & Ig).
  exists g. split; [exact E|]. split; [exact Fg|]. split.
  - cbn [np.ndim] in *. lia.
  - intros i Hi.
    rewrite Ig, Icoords, Isc, Is2, Id, Ixc, Iys, Isl, Icl, Ico, Iso,
      Ix2, Iy2, Ilat, Ilon, Ix1, Iy1 by exact Hi.
    reflexivity.
Qed.

Lemma polar_motion_correction_elementwise_witness :
  exists g : ndarray R,
    polar_motion_correction
      (Array [0.1; 0.2]) (Scalar 0.05) (Array [45; -30]) (Scalar 0) = Ok g
    /\ fits 2 g
    /\ np.ndim g = 1%nat
    /\ forall i, (i < 2)%nat ->
         np.item 0 g i
         = correction1 (np.item 0 (Array [0.1; 0.2]) i) 0.05
             (np.item 0 (Array [45; -30]) i) 0.
Proof.
  apply (polar_motion_correction_elementwise 2
           (Array [0.1; 0.2]) (Scalar 0.05) (Array [45; -30]) (Scalar 0));
    simpl; auto.
Defined.

(** Arrays of lengths 3 and 2 do not combine: the product of the latitude
    factor and the pole term raises. *)
Example polar_motion_correction_mismatch :
  polar_motion_correction
    (Array [0.1; 0.2; 0.3]) (Scalar 0.05) (Array [45; -30]) (Scalar 0)
  = Raise (ValueError "operands could not be broadcast together").
Proof. reflexivity. Qed.

(** ** get_iers_polar_motion in its environment *)

(** One call: the table is opened, queried once for all of [jd], one
    warning is issued when some status is not [FROM_IERS_B], and the two
    coordinate arrays of the query are returned. *)
Lemma run_get_iers_polar_motion {T : Type} (A : astropy T)
    (jd : ndarray R) (p : process) :
  run A jd p
  ≈ Ret (p ++ [Opened; Interpolated jd]
           ++ (if not_all_final A jd then [Warned wrnmsg] else []),
         (PM_x A (auto_table A) jd, PM_y A (auto_table A) jd)).
Proof.
  unfold run, get_iers_polar_motion, not_all_final.
  rewrite interp_state_bind, interp_state_trigger. cbn.
  rewrite bind_ret_l. cbn.
  rewrite interp_state_bind, interp_state_trigger. cbn.
  rewrite bind_ret_l. cbn.
  rewrite interp_state_bind.
  destruct (np.any (not_equal (PM_source A (auto_table A) jd) FROM_IERS_B)).
  - rewrite interp_state_trigger. cbn. rewrite bind_ret_l. cbn.
    rewrite interp_state_ret, <- !app_assoc. reflexivity.
  - rewrite interp_state_ret, bind_ret_l. cbn.
    rewrite interp_state_ret, <- !app_assoc. reflexivity.
Qed.

(** Three epochs, two of them past the finals: one warning. *)
Example rapid_run :
  run rapid (Array [59000; 60001; 60002]) []
  ≈ Ret ([Opened; Interpolated (Array [59000; 60001; 60002]);
          Warned wrnmsg],
         (Array [0.1; 0.1; 0.1], Array [0.05; 0.05; 0.05])).
Proof.
  rewrite run_get_iers_polar_motion.
  assert (E : not_all_final rapid (Array [59000; 60001; 60002]) = true).
  { unfold not_all_final. cbn.
    destruct (Rle_dec 59000 60000); [|lra].
    destruct (Rle_dec 60001 60000); [lra|]. reflexivity. }
  rewrite E. reflexivity.
Qed.

Lemma advisories_app (p q : process) :
  advisories (p ++ q) = advisories p ++ advisories q.
Proof. unfold advisories. apply flat_map_app. Qed.

Lemma acquisitions_app (p q : process) :
  acquisitions (p ++ q) = (acquisitions p + acquisitions q)%nat.
Proof. unfold acquisitions. now rewrite filter_app, length_app. Qed.

Lemma not_all_final_true {T : Type} (A : astropy T) (jd : ndarray R) :
  not_all_final A jd = true
  <-> exists t, In t (epochs jd) /\ status_at A t <> FROM_IERS_B.
Proof.
  unfold not_all_final, PM_source, not_equal, status_at.
  destruct jd as [t|ts]; simpl.
  - rewrite negb_true_iff, Z.eqb_neq. split.
    + intros H. exists t. auto.
    + intros (t' & [<-|[]] & H). exact H.
  - rewrite existsb_exists. split.
    + intros (b & Hin & ->).
      rewrite !in_map_iff in Hin.
      destruct Hin as (s0 & Hb & (t & <- & Hin)%in_map_iff).
      exists t. split; [exact Hin|].
      now rewrite negb_true_iff, Z.eqb_neq in Hb.
    + intros (t & Hin & H). exists true. split; [|reflexivity].
      rewrite in_map_iff.
      exists (snd (interpolate A (auto_table A) t)). split.
      * now rewrite negb_true_iff, Z.eqb_neq.
      * rewrite in_map_iff. eauto.
Qed.

Lemma not_all_final_false {T : Type} (A : astropy T) (jd : ndarray R) :
  (forall t, In t (epochs jd) -> status_at A t = FROM_IERS_B) ->
  not_all_final A jd = false.
Proof.
  intros H. destruct (not_all_final A jd) eqn:E; [|reflexivity].
  apply not_all_final_true in E. destruct E as (t & Hin & Hne).
  now apply H in Hin.
Qed.

(** C3: whenever the points are resolved the call returns their
    coordinates; it issues one advisory for the whole call if some point is
    not final, and none if all are. *)
Theorem one_advisory_per_call {T : Type} (A : astropy T)
    (jd : ndarray R) (p : process) :
  exists p' : process,
    run A jd p
    ≈ Ret (p', (PM_x A (auto_table A) jd, PM_y A (auto_table A) jd))
    /\ ((exists t, In t (epochs jd) /\ status_at A t <> FROM_IERS_B) ->
        advisories p' = advisories p ++ [wrnmsg])
    /\ ((forall t, In t (epochs jd) -> status_at A t = FROM_IERS_B) ->
        advisories p' = advisories p).
Proof.
  eexists. split; [apply run_get_iers_polar_motion|]. split.
  - intros H. apply not_all_final_true in H. rewrite H.
    now rewrite advisories_app.
  - intros H. rewrite (not_all_final_false A jd H).
    rewrite advisories_app. apply app_nil_r.
Qed.

Lemma one_advisory_per_call_witness :
  exists p' : process,
    run rapid (Array [59000; 60001; 60002]) []
    ≈ Ret (p',
           (PM_x rapid tt (Array [59000; 60001; 60002]),
            PM_y rapid tt (Array [59000; 60001; 60002])))
    /\ advisories p' = [wrnmsg].
Proof.
  destruct (one_advisory_per_call rapid (Array [59000; 60001; 60002]) [])
    as (p' & Hrun & Hsome & _).
  exists p'. split; [exact Hrun|].
  apply Hsome. exists 60001. split; [simpl; auto|].
  unfold status_at. simpl.
  destruct (Rle_dec 60001 60000); [lra|discriminate].
Defined.

(** C5 as stated fails: called on an epoch alone, in a process that never
    opened a table, the function opens one itself. *)
Lemma table_opened_by_the_query :
  run finals (Scalar 2451545) []
  ≈ Ret ([Opened; Interpolated (Scalar 2451545)],
         (Scalar 0.1, Scalar 0.05)).
Proof. rewrite run_get_iers_polar_motion. reflexivity. Qed.

(** C5, amended: [polar_motion_correction] asks nothing of the
    environment; [get_iers_polar_motion] is given the epochs only and
    acquires the table itself, by one [IERS_Auto.open()] at the start of
    every call, followed by one [pm_xy] query and nothing else on the
    table. *)
Theorem table_acquired_inside_query {T : Type} (A : astropy T)
    (jd : ndarray R) (p : process) :
  (forall xp yp lat lon : ndarray R,
      interp_state (handle A) (Ret (polar_motion_correction xp yp lat lon)) p
      ≈ Ret (p, polar_motion_correction xp yp lat lon))
  /\ exists (q : process) (r : ndarray R * ndarray R),
      run A jd p ≈ Ret (p ++ Opened :: Interpolated jd :: q, r)
      /\ acquisitions (p ++ Opened :: Interpolated jd :: q)
         = S (acquisitions p)
      /\ forall e, In e q -> exists msg, e = Warned msg.
Proof.
  split.
  - intros xp yp lat lon. now rewrite interp_state_ret.
  - eexists. eexists. split; [apply run_get_iers_polar_motion|].
    rewrite acquisitions_app. split.
    + unfold acquisitions. destruct (not_all_final A jd); simpl; lia.
    + intros e. destruct (not_all_final A jd); simpl; [|tauto].
      intros [<-|[]]. eauto.
Qed.

(** C8: the coordinates come back in the shape of the query, a scalar for
    a scalar and an array of as many elements for an array, element [i]
    being the interpolation at epoch [i]. *)
Theorem get_iers_polar_motion_shape {T : Type} (A : astropy T)
    (jd : ndarray R) (p : process) :
  exists (p' : process) (xp yp : ndarray R),
    run A jd p ≈ Ret (p', (xp, yp))
    /\ np.shape xp = np.shape jd
    /\ np.shape yp = np.shape jd
    /\ forall i, (i < List.length (epochs jd))%nat ->
         np.item 0 xp i
         = fst (fst (interpolate A (auto_table A) (np.item 0 jd i)))
         /\ np.item 0 yp i
            = snd (fst (interpolate A (auto_table A) (np.item 0 jd i))).
Proof.
  do 3 eexists. split; [apply run_get_iers_polar_motion|].
  unfold PM_x, PM_y. destruct jd as [t|ts]; simpl.
  - repeat split.
  - rewrite !length_map. repeat split.
    + now apply (nth_map_in (fun t => fst (fst (interpolate A (auto_table A) t)))).
    + now apply (nth_map_in (fun t => snd (fst (interpolate A (auto_table A) t)))).
Qed.

Lemma get_iers_polar_motion_shape_witness :
  exists (p' : process) (xp yp : ndarray R),
    run finals (Array [59000; 59001]) [] ≈ Ret (p', (xp, yp))
    /\ np.shape xp = Some 2%nat
    /\ np.shape yp = Some 2%nat
    /\ np.item 0 xp 1 = 0.1
    /\ np.item 0 yp 1 = 0.05.
Proof.
  destruct (get_iers_polar_motion_shape finals (Array [59000; 59001]) [])
    as (p' & xp & yp & Hrun & Hx & Hy & Hi).
  exists p', xp, yp.
  destruct (Hi 1%nat) as [H1 H2]; [simpl; lia|].
  split; [exact Hrun|]. split; [exact Hx|]. split; [exact Hy|].
  split; [exact H1|exact H2].
Defined.

(** ** Import *)

(** C10: importing the module leaves [iers.conf] with [auto_max_age = 10],
    [auto_download = None], the finals2000A.all FTP address as
    [iers_auto_url] and [remote_timeout = 60], whatever it held before and
    before any function of the module runs; the other settings keep their
    values. *)
Theorem import_sets_iers_conf (conf : Conf) :
  import_module conf
  = {| auto_download := None;
       auto_max_age := 10;
       iers_auto_url :=
         "ftp://ftp.iers.org/products/eop/rapid/standard/finals2000A.all";
       iers_auto_url_mirror := iers_auto_url_mirror conf;
       remote_timeout := 60 |}.
Proof. reflexivity. Qed.

(** * Further properties of the two functions *)

(** ** The equator *)

Lemma deg2rad_0 : np.deg2rad 0 = 0.
Proof. unfold np.deg2rad. ring. Qed.

(** X4: on the equator the correction is zero for every pole and
    longitude, and binary64 keeps that zero exact, unlike at the poles:
    [radians 0] is [0] and so is its sine. *)
Theorem polar_motion_correction_equator :
  (forall xp yp lon : R,
      polar_motion_correction (Scalar xp) (Scalar yp) (Scalar 0) (Scalar lon)
      = Ok (Scalar 0))
  /\ (forall xp yp lon : float,
        is_finite xp = true -> is_finite yp = true -> is_finite lon = true ->
        Binary64.polar_motion_correction xp yp 0 lon = 0).
Proof.
  split.
  - intros xp yp lon. rewrite polar_motion_correction_scalar.
    do 2 f_equal. unfold correction1. cbv zeta.
    rewrite deg2rad_0, sin_0. ring.
  - intros xp yp lon _ _ _.
    unfold Binary64.polar_motion_correction. cbv zeta.
    rewrite B2R_radians_0, sin_0. ring.
Qed.

Lemma polar_motion_correction_equator_witness :
  Binary64.polar_motion_correction 0.25 0.5 0 10 = 0.
Proof.
  apply (proj2 polar_motion_correction_equator); reflexivity.
Defined.

(** ** Arrays that combine and arrays that do not *)

Lemma ufunc2_mismatch {A B C : Type} (f : A -> B -> C)
    (xs : list A) (ys : list B) :
  List.length xs <> List.length ys ->
  List.length xs <> 1%nat -> List.length ys <> 1%nat ->
  np.ufunc2 f (Array xs) (Array ys)
  = Raise (ValueError "operands could not be broadcast together").
Proof.
  intros Hne Hx Hy. unfold np.ufunc2.
  destruct (Nat.eqb_spec (List.length xs) (List.length ys)) as [E|_];
    [contradiction|].
  destruct xs as [|x [|x' xs]], ys as [|y [|y' ys]];
    simpl in *; try contradiction; reflexivity.
Qed.

(** X7: pole coordinates and latitudes given as arrays of different
    lengths, neither of length one, are refused with a [ValueError]. *)
Theorem polar_motion_correction_shape_mismatch
    (xs ls : list R) (yp lon : R) :
  List.length xs <> List.length ls ->
  List.length xs <> 1%nat -> List.length ls <> 1%nat ->
  polar_motion_correction (Array xs) (Scalar yp) (Array ls) (Scalar lon)
  = Raise (ValueError "operands could not be broadcast together").
Proof.
  intros Hne Hx Hl.
  unfold polar_motion_correction, np.divide, np.multiply, np.subtract,
    np.radians, np.sin, np.cos.
  cbv zeta. cbn [np.ufunc2 np.ufunc1 bind].
  rewrite !length_map, Nat.eqb_refl. cbn [bind].
  rewrite ufunc2_mismatch; [reflexivity| | |];
    rewrite ?length_zip_with, ?length_map; rewrite ?length_map; auto.
Qed.

Lemma polar_motion_correction_shape_mismatch_witness :
  polar_motion_correction
    (Array [0.1; 0.2; 0.3]) (Scalar 0.05) (Array [45; -30]) (Scalar 0)
  = Raise (ValueError "operands could not be broadcast together").
Proof.
  apply polar_motion_correction_shape_mismatch; simpl; lia.
Defined.

(** X8: an array of one pole coordinate is not a mismatch: it is stretched
    over the latitudes like a scalar, whatever their number. *)
Theorem polar_motion_correction_stretches_one
    (x : R) (yp : R) (ls : list R) (lon : R) :
  polar_motion_correction (Array [x]) (Scalar yp) (Array ls) (Scalar lon)
  = polar_motion_correction (Scalar x) (Scalar yp) (Array ls) (Scalar lon).
Proof.
  unfold polar_motion_correction, np.divide, np.multiply, np.subtract,
    np.radians, np.sin, np.cos.
  cbv zeta. cbn [np.ufunc2 np.ufunc1 bind List.map List.length].
  rewrite !length_map, Nat.eqb_refl. cbn [bind].
  destruct ls as [|l [|l' ls]]; reflexivity.
Qed.

(** ** Calls of get_iers_polar_motion in sequence *)



(** ** The two reference meridians *)

(** X12: on the Greenwich meridian the correction does not depend on [yp],
    in exact arithmetic and with the binary64 conversions alike; on the
    meridian 90 degrees east it does not depend on [xp]. *)
Theorem polar_motion_correction_meridians :
  (forall xp yp yp' lat : R,
      polar_motion_correction (Scalar xp) (Scalar yp) (Scalar lat) (Scalar 0)
      = polar_motion_correction
          (Scalar xp) (Scalar yp') (Scalar lat) (Scalar 0))
  /\ (forall xp xp' yp lat : R,
        polar_motion_correction
          (Scalar xp) (Scalar yp) (Scalar lat) (Scalar 90)
        = polar_motion_correction
            (Scalar xp') (Scalar yp) (Scalar lat) (Scalar 90))
  /\ (forall xp yp yp' lat : float,
        is_finite xp = true -> is_finite yp = true ->
        is_finite yp' = true -> is_finite lat = true ->
        Binary64.polar_motion_correction xp yp lat 0
        = Binary64.polar_motion_correction xp yp' lat 0).
Proof.
  split; [|split].
  - intros xp yp yp' lat. rewrite !polar_motion_correction_scalar.
    do 2 f_equal. unfold correction1. cbv zeta.
    rewrite deg2rad_0, sin_0. ring.
  - intros xp xp' yp lat. rewrite !polar_motion_correction_scalar.
    do 2 f_equal. unfold correction1. cbv zeta.
    rewrite deg2rad_90, cos_PI2. ring.
  - intros xp yp yp' lat _ _ _ _.
    unfold Binary64.polar_motion_correction. cbv zeta.
    rewrite B2R_radians_0, sin_0. ring.
Qed.

Lemma polar_motion_correction_meridians_witness :
  Binary64.polar_motion_correction 0.25 0.5 45 0
  = Binary64.polar_motion_correction 0.25 0.75 45 0.
Proof.
  apply (proj2 (proj2 polar_motion_correction_meridians)); reflexivity.
Defined.
